(** * Animals API: the request handlers of [app.js] over a model of the
      Mongoose collection they call.

    [app.js] registers five Express routes on the [Animal] model built from
    [animalsSchema] ([animalsData.js]) and a boot sequence that connects to
    MongoDB and starts listening.  Each handler is one [try]/[catch] around
    one call of the model.

    The handlers are embedded in a state-and-exception monad over the
    collection.  What Mongoose does inside [create], [find], [findById],
    [findByIdAndUpdate] and [findByIdAndDelete] is library code: it is
    written out here following Mongoose's documented behaviour (casting,
    [required] validators, update validators, ObjectId syntax), and the
    text-level primitives of the JavaScript runtime that no handler
    inspects are kept abstract in the class [JsRuntime].

    A request body is the JSON object that [express.json()] has parsed.
    Of its keys the model reads the three paths [animalsSchema] declares;
    the version key [__v] that Mongoose keeps in each document, and an
    [_id] sent inside a body, are left out. *)

From stdpp Require Import gmap strings list fin_maps.
From Stdlib Require Import Ascii String QArith.

Set Warnings "-register-all".
Local Open Scope string_scope.
Local Open Scope Z_scope.

(** ** JSON values of a parsed request body *)

Inductive jvalue :=
| JNull
| JBool (b : bool)
| JNum (q : Q)
| JStr (s : string)
| JArr (items : list jvalue)
| JObj (members : list (string * jvalue)).

(** [Number.isInteger] on a JSON number. *)
Definition is_integer (q : Q) : bool :=
  (Qnum q mod Z.pos (Qden q) =? 0)%Z.

(** ** Errors thrown by a model call *)

Inductive field_error :=
| Required
| CastFailed (kind : string) (value : jvalue).

Inductive js_error :=
| CastError (kind path : string) (value : jvalue)
| ValidationError (errors : list (string * field_error))
| MongoServerError (code : Z)
| DriverError (reason : string).

(** The result of casting a JSON value to a schema type: a value, [null],
    or a failed cast. *)
Inductive casted (A : Type) :=
| Cast (a : A)
| Null
| Uncastable.
Arguments Cast {A} a.
Arguments Null {A}.
Arguments Uncastable {A}.

(** The primitives of the runtime that the handlers pass through without
    looking inside: [Number(s)] on a string ([None] is [NaN]), [String(n)]
    on a number, what Mongoose's casts answer on a nested object, and the
    text of [error.message]. *)
Class JsRuntime := {
  Number_of_string : string -> option Q;
  String_of_number : Q -> string;
  castString_object : list (string * jvalue) -> casted string;
  castNumber_object : list (string * jvalue) -> casted Q;
  message : js_error -> string
}.

(** ** ObjectId: 96 bits, written as 24 hexadecimal characters *)

Abbreviation ObjectId := N (only parsing).

Definition hex_val (c : ascii) : option N :=
  let n := N_of_ascii c in
  if ((48 <=? n) && (n <=? 57))%N then Some (n - 48)%N
  else if ((97 <=? n) && (n <=? 102))%N then Some (n - 87)%N
  else if ((65 <=? n) && (n <=? 70))%N then Some (n - 55)%N
  else None.

Definition hex_digit (n : N) : ascii :=
  if (n <? 10)%N then ascii_of_N (48 + n) else ascii_of_N (87 + n).

Fixpoint parse_hex (s : string) (acc : N) : option N :=
  match s with
  | EmptyString => Some acc
  | String c rest =>
      match hex_val c with
      | Some v => parse_hex rest (16 * acc + v)%N
      | None => None
      end
  end.

(** [k] hexadecimal digits of [n], most significant first. *)
Fixpoint to_hex (k : nat) (n : N) : string :=
  match k with
  | O => EmptyString
  | S k' => to_hex k' (n / 16)%N +:+ String (hex_digit (n mod 16)%N) EmptyString
  end.

(** [ObjectId.prototype.toHexString]. *)
Definition toHexString (oid : ObjectId) : string := to_hex 24 oid.

(** The ObjectId a string denotes, when it is 24 hexadecimal characters.
    (Older drivers also take any string of 12 characters.  The properties
    below use of the syntax only that the 24 digits of an ObjectId parse
    back to it.) *)
Definition parseObjectId (id : string) : option ObjectId :=
  if Nat.eqb (String.length id) 24 then parse_hex id 0%N else None.

Definition oid_bound : N := (2 ^ 96)%N.

(** ** The schema of [animalsData.js] *)

Inductive schema_type := SchemaString | SchemaNumber.

Record schema_path := SchemaPath {
  type : schema_type;
  required : bool
}.

(** [animalsSchema]: three paths, each with its [type] and [required:
    true], in the order of the source. *)
Definition animalsSchema : list (string * schema_path) :=
  [("name", {| type := SchemaString; required := true |});
   ("species", {| type := SchemaString; required := true |});
   ("age", {| type := SchemaNumber; required := true |})].

(** The declaration of a path ([Schema.prototype.path]). *)
Fixpoint path_of (schema : list (string * schema_path)) (path : string)
  : option schema_path :=
  match schema with
  | [] => None
  | (k, p) :: rest => if decide (k = path) then Some p else path_of rest path
  end.

(** A stored field, and a stored document: its [_id] and its fields. *)
Inductive value :=
| VString (s : string)
| VNumber (q : Q).

Record document := Document {
  _id : ObjectId;
  fields : gmap string value
}.

(** The [animals] collection: the stored fields of each [_id]. *)
Abbreviation collection := (gmap N (gmap string value)).

(** The record of an animal: the three fields of the schema. *)
Definition animal (n s : string) (q : Q) : gmap string value :=
  {[ "name" := VString n; "species" := VString s; "age" := VNumber q ]}.

(** The name Mongoose gives a type in a cast error. *)
Definition kind (ty : schema_type) : string :=
  match ty with
  | SchemaString => "string"
  | SchemaNumber => "Number"
  end.

(** [checkRequired]: what the [required] validator lets through.  For a
    [String] path the empty string is refused. *)
Definition checkRequired (y : value) : bool :=
  match y with
  | VString EmptyString => false
  | VString _ | VNumber _ => true
  end.

Section Casting.
Context `{JsRuntime}.

(** Mongoose's cast to [String]. *)
Definition castString (v : jvalue) : casted string :=
  match v with
  | JNull => Null
  | JStr s => Cast s
  | JNum q => Cast (String_of_number q)
  | JBool b => Cast (if b then "true" else "false")
  | JArr _ => Uncastable
  | JObj o => castString_object o
  end.

(** Mongoose's cast to [Number]: the empty string is [null], other strings
    and booleans go through [Number(...)], [NaN] fails the cast. *)
Definition castNumber (v : jvalue) : casted Q :=
  match v with
  | JNull => Null
  | JStr EmptyString => Null
  | JStr s =>
      match Number_of_string s with
      | Some q => Cast q
      | None => Uncastable
      end
  | JBool b => Cast (if b then 1%Q else 0%Q)
  | JNum q => Cast q
  | JArr _ => Uncastable
  | JObj o => castNumber_object o
  end.

Definition castPath (ty : schema_type) (v : jvalue) : casted value :=
  match ty with
  | SchemaString =>
      match castString v with
      | Cast s => Cast (VString s)
      | Null => Null
      | Uncastable => Uncastable
      end
  | SchemaNumber =>
      match castNumber v with
      | Cast q => Cast (VNumber q)
      | Null => Null
      | Uncastable => Uncastable
      end
  end.

(** One path of a new document: the value is cast, a failed cast is kept
    as that path's error, and the [required] validator of a required path
    refuses a missing value, [null], and what [checkRequired] refuses.  A
    path left without a value is not stored. *)
Definition docPath (p : schema_path) (v : option jvalue)
  : option value + field_error :=
  match v with
  | None => if required p then inr Required else inl None
  | Some x =>
      match castPath (type p) x with
      | Cast y =>
          if required p && negb (checkRequired y) then inr Required
          else inl (Some y)
      | Null => if required p then inr Required else inl None
      | Uncastable => inr (CastFailed (kind (type p)) x)
      end
  end.

(** Every path of the schema is checked against the body and the errors of
    all paths are collected.  Keys of the body that are not paths of the
    schema are dropped (strict mode). *)
Fixpoint validatePaths (schema : list (string * schema_path))
    (body : gmap string jvalue)
  : gmap string value * list (string * field_error) :=
  match schema with
  | [] => (∅, [])
  | (path, p) :: rest =>
      let '(doc, errors) := validatePaths rest body in
      match docPath p (body !! path) with
      | inl (Some y) => (<[path := y]> doc, errors)
      | inl None => (doc, errors)
      | inr e => (doc, (path, e) :: errors)
      end
  end.

(** Validation of a document built from a request body, as [create] runs
    it before the insert. *)
Definition validateDocument (body : gmap string jvalue)
  : gmap string value + list (string * field_error) :=
  match validatePaths animalsSchema body with
  | (doc, []) => inl doc
  | (_, errors) => inr errors
  end.

(** The body of [findByIdAndUpdate] has no [$] operator, so it is the
    [$set] of its keys: each key that is a path of the schema is cast
    ([Some None] is a path set to [null]), keys that are no path of the
    schema are dropped, and the first failed cast is thrown.  (When several
    casts fail Mongoose reports the first in the order of the body's keys;
    here it is the first in the order of the schema.  Only the text of the
    message depends on it.) *)
Fixpoint castUpdatePaths (schema : list (string * schema_path))
    (body : gmap string jvalue) : gmap string (option value) + js_error :=
  match schema with
  | [] => inl ∅
  | (path, p) :: rest =>
      match body !! path with
      | None => castUpdatePaths rest body
      | Some x =>
          match castPath (type p) x with
          | Uncastable => inr (CastError (kind (type p)) path x)
          | c =>
              match castUpdatePaths rest body with
              | inr e => inr e
              | inl u =>
                  let new := match c with Cast y => Some y | _ => None end in
                  inl (<[path := new]> u)
              end
          end
      end
  end.

Definition castUpdate (body : gmap string jvalue)
  : gmap string (option value) + js_error :=
  castUpdatePaths animalsSchema body.

(** Update validators ([runValidators: true]) run on the paths the update
    sets, and on those only: the [required] validator of a required path
    refuses [null] and what [checkRequired] refuses. *)
Definition updatePathError (p : schema_path) (u : option (option value))
  : option field_error :=
  match u with
  | None => None
  | Some None => if required p then Some Required else None
  | Some (Some y) =>
      if required p && negb (checkRequired y) then Some Required else None
  end.

Fixpoint validateUpdatePaths (schema : list (string * schema_path))
    (u : gmap string (option value)) : list (string * field_error) :=
  match schema with
  | [] => []
  | (path, p) :: rest =>
      match updatePathError p (u !! path) with
      | Some e => (path, e) :: validateUpdatePaths rest u
      | None => validateUpdatePaths rest u
      end
  end.

Definition validateUpdate (u : gmap string (option value))
  : list (string * field_error) :=
  validateUpdatePaths animalsSchema u.

(** Both steps together: the update that reaches the server, or the error
    thrown before anything is sent. *)
Definition checkedUpdate (b : gmap string jvalue)
  : gmap string (option value) + js_error :=
  match castUpdate b with
  | inr e => inr e
  | inl u =>
      match validateUpdate u with
      | [] => inl u
      | errors => inr (ValidationError errors)
      end
  end.

(** A value that a path accepts when it is present: it casts, and the
    [required] validator lets the result through.  These are the checks of
    one path, the same in a new document and in an update. *)
Definition acceptsPath (p : schema_path) (v : jvalue) : bool :=
  match castPath (type p) v with
  | Cast y => negb (required p) || checkRequired y
  | Null => negb (required p)
  | Uncastable => false
  end.

(** Every path of the schema that the body carries holds an accepted
    value; a path the body does not carry is not looked at. *)
Definition present_fields_valid (b : gmap string jvalue) : bool :=
  forallb (fun kp => from_option (acceptsPath (snd kp)) true (b !! fst kp))
    animalsSchema.

(** The paths an error is about. *)
Definition error_paths (e : js_error) : list string :=
  match e with
  | CastError _ path _ => [path]
  | ValidationError errors => fst <$> errors
  | MongoServerError _ | DriverError _ => []
  end.

End Casting.

(** What [$set] leaves in the stored record, path by path: a path the
    update sets takes the new value (a path set to [null] holds no value
    any more), every other path keeps what it had. *)
Definition set_path (u : option (option value)) (old : option value)
  : option value :=
  match u with
  | Some new => new
  | None => old
  end.

Definition applyUpdate (u : gmap string (option value))
    (a : gmap string value) : gmap string value :=
  merge set_path u a.

(** The fields every stored record is meant to have: the paths of the
    schema, all of them required. *)
Definition complete (a : gmap string value) : Prop :=
  forall path, is_Some (a !! path) <-> is_Some (path_of animalsSchema path).

Definition all_complete (st : collection) : Prop :=
  forall oid a, st !! oid = Some a -> complete a.

(** ** The collection and the monad of a request

    The [animals] collection maps an [_id] to the stored fields.  A handler
    runs in a state-and-exception monad over the collection: a model call
    returns or throws, and [try_catch] is JavaScript's [try]/[catch]. *)

Inductive outcome (A : Type) :=
| Return (a : A)
| Throw (e : js_error).
Arguments Return {A} a.
Arguments Throw {A} e.

Definition M (A : Type) : Type :=
  collection -> outcome A * collection.

Definition ret {A} (a : A) : M A := fun st => (Return a, st).

Definition throw {A} (e : js_error) : M A := fun st => (Throw e, st).

Definition bind {A B} (m : M A) (k : A -> M B) : M B :=
  fun st =>
    match m st with
    | (Return a, st') => k a st'
    | (Throw e, st') => (Throw e, st')
    end.

Definition try_catch {A} (block : M A) (handler : js_error -> M A) : M A :=
  fun st =>
    match block st with
    | (Return a, st') => (Return a, st')
    | (Throw e, st') => handler e st'
    end.

Notation "'let!' x ':=' m 'in' k" := (bind m (fun x => k))
  (at level 10, x name, m at level 100, k at level 200).

(** What the world outside the process decides for one request: whether
    the one call to the server fails (and with what error), and the
    ObjectId the driver generates for a new document. *)
Record env := Env {
  store_fault : option js_error;
  generated_id : N
}.

(** The round trip to the MongoDB server that every model call makes once. *)
Definition server_call (ev : env) : M unit :=
  match store_fault ev with
  | Some e => throw e
  | None => ret tt
  end.

(** [Query] casts the [_id] condition before anything is sent. *)
Definition castObjectId (id : string) : M N :=
  match parseObjectId id with
  | Some oid => ret oid
  | None => throw (CastError "ObjectId" "_id" (JStr id))
  end.

Definition documents (st : collection) : list document :=
  (fun kv => Document (fst kv) (snd kv)) <$> map_to_list st.

(** [animalModel.find()]. *)
Definition Model_find (ev : env) : M (list document) :=
  let! _ := server_call ev in
  fun st => (Return (documents st), st).

(** [animalModel.findById(id)]: the document, or [null]. *)
Definition Model_findById (ev : env) (id : string) : M (option document) :=
  let! oid := castObjectId id in
  let! _ := server_call ev in
  fun st => (Return (Document oid <$> st !! oid), st).

(** [animalModel.findByIdAndDelete(id)]: the deleted document, or [null]. *)
Definition Model_findByIdAndDelete (ev : env) (id : string)
  : M (option document) :=
  let! oid := castObjectId id in
  let! _ := server_call ev in
  fun st =>
    match st !! oid with
    | Some a => (Return (Some (Document oid a)), delete oid st)
    | None => (Return None, st)
    end.

Section Model.
Context `{JsRuntime}.

(** [animalModel.create(body)]: validate, then insert under the generated
    [_id]; the unique index on [_id] refuses a duplicate (E11000). *)
Definition Model_create (ev : env) (body : gmap string jvalue) : M document :=
  match validateDocument body with
  | inr errors => throw (ValidationError errors)
  | inl a =>
      let! _ := server_call ev in
      fun st =>
        match st !! generated_id ev with
        | Some _ => (Throw (MongoServerError 11000), st)
        | None =>
            (Return (Document (generated_id ev) a),
             <[generated_id ev := a]> st)
        end
  end.

(** [animalModel.findByIdAndUpdate(id, body, { new: true, runValidators:
    true })]: cast the [_id], cast the update, run the update validators,
    then let the server apply the [$set]; the answer is the document after
    the update ([new: true]), or [null] when no document has that [_id]. *)
Definition Model_findByIdAndUpdate (ev : env) (id : string)
    (body : gmap string jvalue) : M (option document) :=
  let! oid := castObjectId id in
  match castUpdate body with
  | inr e => throw e
  | inl u =>
      match validateUpdate u with
      | (_ :: _) as errors => throw (ValidationError errors)
      | [] =>
          let! _ := server_call ev in
          fun st =>
            match st !! oid with
            | Some a =>
                (Return (Some (Document oid (applyUpdate u a))),
                 <[oid := applyUpdate u a]> st)
            | None => (Return None, st)
            end
      end
  end.

End Model.

(** ** The Express side: request, response *)

Record request := Request {
  params_id : string;
  body : gmap string jvalue
}.

(** What a handler hands to [res.json] or [res.send]. *)
Inductive payload :=
| JsonDocument (d : document)
| JsonArray (ds : list document)
| JsonError (error : string)
| EmptyBody.

Record response := Response {
  status : Z;
  sent : payload
}.

(** [res.status(code).json(value)] and [res.status(code).send()]. *)
Definition res_json (code : Z) (value : payload) : M response :=
  ret (Response code value).

Definition res_send (code : Z) : M response :=
  ret (Response code EmptyBody).

(** The status of the reply of a handler, if it replied. *)
Definition status_of (r : outcome response * collection)
  : option Z :=
  match fst r with
  | Return res => Some (status res)
  | Throw _ => None
  end.

(** A reply that carries [{ error: message }]. *)
Definition error_shaped (r : response) : Prop :=
  exists msg, sent r = JsonError msg.

(** A handler that caught whatever its model call threw: it replied, with
    an error body whenever the call threw or the status is an error
    status, and with an empty body under status 204 only. *)
Definition caught {A} (call : outcome A * collection)
    (reply : outcome response * collection) : Prop :=
  exists r st',
    reply = (Return r, st')
    /\ (forall e st'', call = (Throw e, st'') ->
        error_shaped r /\ 400 <= status r)
    /\ (400 <= status r -> error_shaped r)
    /\ (sent r = EmptyBody -> status r = 204).

(** ** The five routes of [app.js] *)

Section Routes.
Context `{JsRuntime}.

(** [app.post("/animals", ...)] *)
Definition post_animals (ev : env) (req : request) : M response :=
  try_catch
    (let! newAnimal := Model_create ev (body req) in
     res_json 201 (JsonDocument newAnimal))
    (fun error => res_json 400 (JsonError (message error))).

(** [app.get("/animals", ...)] *)
Definition get_animals (ev : env) (req : request) : M response :=
  try_catch
    (let! animals := Model_find ev in
     res_json 200 (JsonArray animals))
    (fun error => res_json 500 (JsonError (message error))).

(** [app.get("/animals/:id", ...)] *)
Definition get_animals_id (ev : env) (req : request) : M response :=
  try_catch
    (let! animal := Model_findById ev (params_id req) in
     match animal with
     | None => res_json 404 (JsonError "Animal not found")
     | Some a => res_json 200 (JsonDocument a)
     end)
    (fun error => res_json 400 (JsonError "Invalid ID format")).

(** [app.put("/animals/:id", ...)] *)
Definition put_animals_id (ev : env) (req : request) : M response :=
  try_catch
    (let! updatedAnimal :=
       Model_findByIdAndUpdate ev (params_id req) (body req) in
     match updatedAnimal with
     | None => res_json 404 (JsonError "Animal not found")
     | Some a => res_json 200 (JsonDocument a)
     end)
    (fun error => res_json 400 (JsonError (message error))).

(** [app.delete("/animals/:id", ...)] *)
Definition delete_animals_id (ev : env) (req : request) : M response :=
  try_catch
    (let! deletedAnimal := Model_findByIdAndDelete ev (params_id req) in
     match deletedAnimal with
     | None => res_json 404 (JsonError "Animal not found")
     | Some _ => res_send 204
     end)
    (fun error => res_json 400 (JsonError "Invalid ID format")).



End Routes.

(** ** Boot: [conectDB()] and [app.listen(PORT)]

    The top level of [app.js] is one synchronous script.  Calling an
    [async] function runs it up to its first [await] and returns; what
    follows the [await] runs when the awaited promise has settled, which is
    after the script has run to its end.  [process.exit] ends the trace. *)

Definition PORT : Z := 3000.

Inductive connect_result :=
| Connected
| ConnectFailed (e : js_error).

Inductive boot_event :=
| ConnectCalled
| ConnectSettled (r : connect_result)
| ConsoleLog (text : string)
| ConsoleError (text detail : string)
| Listening (port : Z)
| ProcessExit (code : Z).

(** An [async] function with one [await]: the events up to the [await] and
    the continuation on the settled promise. *)
Record async_fn := AsyncFn {
  before_await : list boot_event;
  after_await : connect_result -> list boot_event
}.

(** The two kinds of statement at the top level of [app.js]: a call of an
    [async] function that is not awaited, and [app.listen(port, callback)],
    which opens the port at once and runs its callback on the next tick. *)
Inductive statement :=
| CallAsync (f : async_fn)
| CallListen (port : Z) (callback : list boot_event).

Record script_run := ScriptRun {
  sync_events : list boot_event;
  next_tick : list boot_event;
  waiting : list (connect_result -> list boot_event)
}.

(** The synchronous run of a script: its events, the callbacks queued for
    the next tick, and the continuations left waiting on the promise. *)
Fixpoint run_script (script : list statement) : script_run :=
  match script with
  | [] => ScriptRun [] [] []
  | CallAsync f :: rest =>
      let r := run_script rest in
      ScriptRun (before_await f ++ sync_events r)%list (next_tick r)
        (after_await f :: waiting r)
  | CallListen port callback :: rest =>
      let r := run_script rest in
      ScriptRun (Listening port :: sync_events r)
        (callback ++ next_tick r)%list (waiting r)
  end.

Fixpoint until_exit (events : list boot_event) : list boot_event :=
  match events with
  | [] => []
  | ProcessExit code :: _ => [ProcessExit code]
  | e :: rest => e :: until_exit rest
  end.

(** The whole run: the script, then the next-tick callbacks, then the
    promise settles and the waiting continuations run. *)
Definition run_process (script : list statement) (r : connect_result)
  : list boot_event :=
  let run := run_script script in
  until_exit (sync_events run ++ next_tick run ++ ConnectSettled r
                :: List.concat ((fun k => k r) <$> waiting run))%list.

Section Boot.
Context `{JsRuntime}.

Definition conectDB : async_fn :=
  {| before_await := [ConnectCalled];
     after_await := fun r =>
       match r with
       | Connected => [ConsoleLog "Connected to MongoDB"]
       | ConnectFailed error =>
           [ConsoleError "Error connecting to MongoDB:" (message error);
            ProcessExit 1]
       end |}.

(** Lines 88-91: [conectDB();] then [app.listen(PORT, ...)]. *)
Definition app_js : list statement :=
  [CallAsync conectDB;
   CallListen PORT [ConsoleLog "Server listening on port 3000"]].

Definition boot (r : connect_result) : list boot_event :=
  run_process app_js r.

End Boot.

(** The port is open once [Listening] has occurred; the connection is
    established once the promise of [connect] has settled with success. *)
Fixpoint listens_only_after_connected_from (established : bool)
    (events : list boot_event) : bool :=
  match events with
  | [] => true
  | Listening _ :: rest =>
      established && listens_only_after_connected_from established rest
  | ConnectSettled Connected :: rest =>
      listens_only_after_connected_from true rest
  | _ :: rest => listens_only_after_connected_from established rest
  end.

Definition listens_only_after_connected (events : list boot_event) : bool :=
  listens_only_after_connected_from false events.

Definition exit_code (events : list boot_event) : option Z :=
  last (omap (fun e => match e with ProcessExit c => Some c | _ => None end)
          events).

(** ** The routes, and the replies their [@swagger] blocks document *)

(** The five registrations of [app.js], in the order of the source. *)
Inductive route :=
| PostAnimals
| GetAnimals
| GetAnimalsId
| PutAnimalsId
| DeleteAnimalsId.

(** The [responses] of the [@swagger] block above each registration. *)
Definition documented_responses (r : route) : list Z :=
  match r with
  | PostAnimals => [201; 400]
  | GetAnimals => [200; 500]
  | GetAnimalsId => [200; 400; 404]
  | PutAnimalsId => [200; 400; 404]
  | DeleteAnimalsId => [204; 400; 404]
  end.

Section Dispatch.
Context `{JsRuntime}.

(** The handler registered for a route. *)
Definition handle (r : route) : env -> request -> M response :=
  match r with
  | PostAnimals => post_animals
  | GetAnimals => get_animals
  | GetAnimalsId => get_animals_id
  | PutAnimalsId => put_animals_id
  | DeleteAnimalsId => delete_animals_id
  end.

End Dispatch.




(** ** Sample data for evaluating the handlers *)

(** A run-time whose text primitives are the simplest possible; the sample
    requests below never reach them, apart from [message]. *)
Definition sample_runtime : JsRuntime :=
  {| Number_of_string := fun _ => None;
     String_of_number := fun _ => "";
     castString_object := fun _ => Uncastable;
     castNumber_object := fun _ => Uncastable;
     message := fun e =>
       match e with
       | CastError _ _ _ => "Cast failed"
       | ValidationError _ => "Validation failed"
       | MongoServerError _ => "E11000 duplicate key error"
       | DriverError reason => reason
       end |}.

Definition lion : gmap string value := animal "Lion" "Mammal" 5.

Definition tiger : gmap string value := animal "Tiger" "Mammal" 5.

Definition lion_id : N := 0x507f1f77bcf86cd799439011%N.

Definition lion_hex : string := "507f1f77bcf86cd799439011".

Definition zoo : collection := {[ lion_id := lion ]}.

Definition lion_body : gmap string jvalue :=
  {[ "name" := JStr "Lion"; "species" := JStr "Mammal"; "age" := JNum 5 ]}.

Definition quiet : env := Env None lion_id.

Definition unreachable : env :=
  Env (Some (DriverError "connection lost")) lion_id.

Definition tiger_patch : request :=
  Request lion_hex {[ "name" := JStr "Tiger" ]}.

Definition empty_patch : request := Request lion_hex ∅.


Definition half_aged_lion : request :=
  Request ""
    {[ "name" := JStr "Lion"; "species" := JStr "Mammal";
       "age" := JNum (5 # 2) ]}.

Definition stranger_hex : string := "507f191e810c19729de860ea".

Definition stranger_id : N := 0x507f191e810c19729de860ea%N.

Definition create_lion : request := Request "" lion_body.

Definition refused : connect_result :=
  ConnectFailed (DriverError "connection refused").


(** * Properties *)

(** ** ObjectId syntax: printing then parsing *)

Lemma hex_val_digit (n : N) :
  (n < 16)%N -> hex_val (hex_digit n) = Some n.
Proof.
  intros Hn. destruct n as [|p]; [reflexivity|].
  do 4 (destruct p as [p|p|]; try reflexivity; try lia).
Qed.

Lemma length_append (s1 s2 : string) :
  String.length (s1 +:+ s2) = (String.length s1 + String.length s2)%nat.
Proof. induction s1 as [|c s1 IH]; simpl; [reflexivity | now rewrite IH]. Qed.

Lemma length_to_hex (k : nat) (n : N) : String.length (to_hex k n) = k.
Proof.
  revert n. induction k as [|k IH]; intros n; simpl; [reflexivity|].
  rewrite length_append, IH. simpl. lia.
Qed.

Lemma parse_hex_append (s1 s2 : string) (acc : N) :
  parse_hex (s1 +:+ s2) acc =
  match parse_hex s1 acc with
  | Some a => parse_hex s2 a
  | None => None
  end.
Proof.
  revert acc. induction s1 as [|c s1 IH]; intros acc; simpl; [reflexivity|].
  destruct (hex_val c); [apply IH | reflexivity].
Qed.

Lemma parse_to_hex (k : nat) (n acc : N) :
  parse_hex (to_hex k n) acc
  = Some (acc * 16 ^ N.of_nat k + n mod 16 ^ N.of_nat k)%N.
Proof.
  revert n acc. induction k as [|k IH]; intros n acc.
  - simpl. f_equal. rewrite N.mod_1_r. lia.
  - cbn [to_hex]. rewrite parse_hex_append, IH. cbn [parse_hex].
    rewrite hex_val_digit by (apply N.mod_lt; lia).
    f_equal. rewrite Nat2N.inj_succ, N.pow_succ_r'.
    rewrite (N.Div0.mod_mul_r n 16 (16 ^ N.of_nat k)). lia.
Qed.

Lemma parse_toHexString (oid : N) :
  (oid < oid_bound)%N -> parseObjectId (toHexString oid) = Some oid.
Proof.
  intros Hlt. unfold parseObjectId, toHexString.
  rewrite length_to_hex. cbn [Nat.eqb].
  rewrite parse_to_hex. f_equal.
  change (16 ^ N.of_nat 24)%N with oid_bound.
  rewrite N.mod_small by exact Hlt. lia.
Qed.

(** A parsed identifier is a 96-bit value. *)
Lemma parse_hex_bound (s : string) (acc r : N) :
  parse_hex s acc = Some r ->
  (r < (acc + 1) * 16 ^ N.of_nat (String.length s))%N.
Proof.
  revert acc r. induction s as [|c s IH]; intros acc r; simpl.
  - intros [= <-]. lia.
  - destruct (hex_val c) as [v|] eqn:Hv; [|discriminate].
    intros Hp. apply IH in Hp.
    assert (v < 16)%N as Hv16.
    { unfold hex_val in Hv. cbv zeta in Hv.
      repeat match type of Hv with
             | (if ?b then _ else _) = _ =>
                 let Hlo := fresh "Hlo" in
                 let Hhi := fresh "Hhi" in
                 destruct b eqn:Hlo;
                 [apply andb_prop in Hlo as [Hlo Hhi];
                  apply N.leb_le in Hlo, Hhi|]
             end; inversion Hv; subst; lia. }
    rewrite Nat2N.inj_succ, N.pow_succ_r'.
    set (P := (16 ^ N.of_nat (String.length s))%N) in *. nia.
Qed.

Lemma parseObjectId_bound (id : string) (oid : N) :
  parseObjectId id = Some oid -> (oid < oid_bound)%N.
Proof.
  unfold parseObjectId.
  destruct (Nat.eqb (String.length id) 24) eqn:Hlen; [|discriminate].
  apply Nat.eqb_eq in Hlen. intros Hp. apply parse_hex_bound in Hp.
  rewrite Hlen in Hp. exact Hp.
Qed.

(** ** The model calls, as equations *)

Lemma Model_findById_eq (ev : env) (id : string) (st : collection) :
  Model_findById ev id st =
  match parseObjectId id with
  | None => (Throw (CastError "ObjectId" "_id" (JStr id)), st)
  | Some oid =>
      match store_fault ev with
      | Some e => (Throw e, st)
      | None => (Return (Document oid <$> st !! oid), st)
      end
  end.
Proof.
  unfold Model_findById, castObjectId, server_call, bind, throw, ret.
  destruct (parseObjectId id); [|reflexivity].
  destruct (store_fault ev); reflexivity.
Qed.

Lemma Model_findByIdAndDelete_eq (ev : env) (id : string)
    (st : collection) :
  Model_findByIdAndDelete ev id st =
  match parseObjectId id with
  | None => (Throw (CastError "ObjectId" "_id" (JStr id)), st)
  | Some oid =>
      match store_fault ev with
      | Some e => (Throw e, st)
      | None =>
          match st !! oid with
          | Some a => (Return (Some (Document oid a)), delete oid st)
          | None => (Return None, st)
          end
      end
  end.
Proof.
  unfold Model_findByIdAndDelete, castObjectId, server_call, bind, throw, ret.
  destruct (parseObjectId id); [|reflexivity].
  destruct (store_fault ev); reflexivity.
Qed.

Lemma Model_find_eq (ev : env) (st : collection) :
  Model_find ev st =
  match store_fault ev with
  | Some e => (Throw e, st)
  | None => (Return (documents st), st)
  end.
Proof.
  unfold Model_find, server_call, bind, throw, ret.
  destruct (store_fault ev); reflexivity.
Qed.

Section ModelEquations.
Context `{JsRuntime}.

Lemma Model_create_eq (ev : env) (b : gmap string jvalue)
    (st : collection) :
  Model_create ev b st =
  match validateDocument b with
  | inr errors => (Throw (ValidationError errors), st)
  | inl a =>
      match store_fault ev with
      | Some e => (Throw e, st)
      | None =>
          match st !! generated_id ev with
          | Some _ => (Throw (MongoServerError 11000), st)
          | None => (Return (Document (generated_id ev) a),
                     <[generated_id ev := a]> st)
          end
      end
  end.
Proof.
  unfold Model_create, server_call, bind, throw, ret.
  destruct (validateDocument b); [|reflexivity].
  destruct (store_fault ev); reflexivity.
Qed.

Lemma Model_findByIdAndUpdate_eq (ev : env) (id : string)
    (b : gmap string jvalue) (st : collection) :
  Model_findByIdAndUpdate ev id b st =
  match parseObjectId id with
  | None => (Throw (CastError "ObjectId" "_id" (JStr id)), st)
  | Some oid =>
      match checkedUpdate b with
      | inr e => (Throw e, st)
      | inl u =>
          match store_fault ev with
          | Some e => (Throw e, st)
          | None =>
              match st !! oid with
              | Some a => (Return (Some (Document oid (applyUpdate u a))),
                           <[oid := applyUpdate u a]> st)
              | None => (Return None, st)
              end
          end
      end
  end.
Proof.
  unfold Model_findByIdAndUpdate, checkedUpdate, castObjectId, server_call,
    bind, throw, ret.
  destruct (parseObjectId id); [|reflexivity].
  destruct (castUpdate b) as [u|e]; [|reflexivity].
  destruct (validateUpdate u); [|reflexivity].
  destruct (store_fault ev); reflexivity.
Qed.

End ModelEquations.

(** ** The handlers, in terms of what the model call answers *)

Lemma get_animals_id_of (ev : env) (req : request) (st : collection) :
  get_animals_id ev req st =
  match Model_findById ev (params_id req) st with
  | (Return None, st') =>
      (Return (Response 404 (JsonError "Animal not found")), st')
  | (Return (Some a), st') => (Return (Response 200 (JsonDocument a)), st')
  | (Throw _, st') =>
      (Return (Response 400 (JsonError "Invalid ID format")), st')
  end.
Proof.
  unfold get_animals_id, try_catch, bind, res_json, ret.
  destruct (Model_findById ev (params_id req) st) as [[[a|]|e] st'];
    reflexivity.
Qed.

Lemma delete_animals_id_of (ev : env) (req : request) (st : collection) :
  delete_animals_id ev req st =
  match Model_findByIdAndDelete ev (params_id req) st with
  | (Return None, st') =>
      (Return (Response 404 (JsonError "Animal not found")), st')
  | (Return (Some _), st') => (Return (Response 204 EmptyBody), st')
  | (Throw _, st') =>
      (Return (Response 400 (JsonError "Invalid ID format")), st')
  end.
Proof.
  unfold delete_animals_id, try_catch, bind, res_json, res_send, ret.
  destruct (Model_findByIdAndDelete ev (params_id req) st) as [[[a|]|e] st'];
    reflexivity.
Qed.

Section HandlerEquations.
Context `{JsRuntime}.

Lemma post_animals_of (ev : env) (req : request) (st : collection) :
  post_animals ev req st =
  match Model_create ev (body req) st with
  | (Return newAnimal, st') =>
      (Return (Response 201 (JsonDocument newAnimal)), st')
  | (Throw e, st') => (Return (Response 400 (JsonError (message e))), st')
  end.
Proof.
  unfold post_animals, try_catch, bind, res_json, ret.
  destruct (Model_create ev (body req) st) as [[a|e] st']; reflexivity.
Qed.

Lemma get_animals_of (ev : env) (req : request) (st : collection) :
  get_animals ev req st =
  match Model_find ev st with
  | (Return animals, st') => (Return (Response 200 (JsonArray animals)), st')
  | (Throw e, st') => (Return (Response 500 (JsonError (message e))), st')
  end.
Proof.
  unfold get_animals, try_catch, bind, res_json, ret.
  destruct (Model_find ev st) as [[a|e] st']; reflexivity.
Qed.

Lemma put_animals_id_of (ev : env) (req : request) (st : collection) :
  put_animals_id ev req st =
  match Model_findByIdAndUpdate ev (params_id req) (body req) st with
  | (Return None, st') =>
      (Return (Response 404 (JsonError "Animal not found")), st')
  | (Return (Some a), st') => (Return (Response 200 (JsonDocument a)), st')
  | (Throw e, st') => (Return (Response 400 (JsonError (message e))), st')
  end.
Proof.
  unfold put_animals_id, try_catch, bind, res_json, ret.
  destruct (Model_findByIdAndUpdate ev (params_id req) (body req) st)
    as [[[a|]|e] st']; reflexivity.
Qed.

End HandlerEquations.

(** ** Identifier syntax, then lookup *)

Section Claims.
Context `{JsRuntime}.

(** C2. A path identifier that does not parse as an ObjectId gets status
    400 from Get-by-id, Update and Delete, whatever the collection holds
    and whatever the server would do.  For an identifier that parses, each
    of the three replies 404 when its model call answers no record, and the
    call answers no record when the server answers and the lookup finds
    none (for Update: once the body has passed the checks that precede the
    lookup). *)
Theorem id_syntax_then_lookup (ev : env) (req : request)
    (st : collection) :
  (parseObjectId (params_id req) = None ->
     status_of (get_animals_id ev req st) = Some 400
     /\ status_of (put_animals_id ev req st) = Some 400
     /\ status_of (delete_animals_id ev req st) = Some 400)
  /\ (forall oid, parseObjectId (params_id req) = Some oid ->
        (fst (Model_findById ev (params_id req) st) = Return None ->
           status_of (get_animals_id ev req st) = Some 404)
        /\ (fst (Model_findByIdAndUpdate ev (params_id req) (body req) st)
              = Return None ->
            status_of (put_animals_id ev req st) = Some 404)
        /\ (fst (Model_findByIdAndDelete ev (params_id req) st)
              = Return None ->
            status_of (delete_animals_id ev req st) = Some 404)
        /\ (store_fault ev = None -> st !! oid = None ->
            status_of (get_animals_id ev req st) = Some 404
            /\ status_of (delete_animals_id ev req st) = Some 404
            /\ (forall u, checkedUpdate (body req) = inl u ->
                status_of (put_animals_id ev req st) = Some 404))).
Proof.
  split.
  - intros Hbad.
    rewrite get_animals_id_of, put_animals_id_of, delete_animals_id_of.
    rewrite Model_findById_eq, Model_findByIdAndUpdate_eq,
      Model_findByIdAndDelete_eq, Hbad.
    repeat split.
  - intros oid Hok.
    rewrite get_animals_id_of, put_animals_id_of, delete_animals_id_of.
    split; [|split; [|split; [|intros Hup Habsent; split; [|split]]]].
    + destruct (Model_findById ev (params_id req) st) as [[[a|]|e] st'];
        simpl; intros; first [reflexivity | discriminate].
    + destruct (Model_findByIdAndUpdate ev (params_id req) (body req) st)
        as [[[a|]|e] st']; simpl; intros; first [reflexivity | discriminate].
    + destruct (Model_findByIdAndDelete ev (params_id req) st)
        as [[[a|]|e] st']; simpl; intros; first [reflexivity | discriminate].
    + rewrite Model_findById_eq, Hok, Hup, Habsent. reflexivity.
    + rewrite Model_findByIdAndDelete_eq, Hok, Hup, Habsent. reflexivity.
    + intros u Hu.
      rewrite Model_findByIdAndUpdate_eq, Hok, Hu, Hup, Habsent. reflexivity.
Qed.

(** C9. Whatever the model call throws, Get-by-id and Delete reply 400
    with the fixed body [{ error: "Invalid ID format" }]: a server failure on
    a well-formed identifier gets the very reply of a malformed identifier.
    Update replies 400 with the message of the error that was thrown. *)
Theorem get_delete_hide_the_error (ev : env) (req : request)
    (st : collection) :
  (forall e st', Model_findById ev (params_id req) st = (Throw e, st') ->
     get_animals_id ev req st
     = (Return (Response 400 (JsonError "Invalid ID format")), st'))
  /\ (forall e st',
        Model_findByIdAndDelete ev (params_id req) st = (Throw e, st') ->
        delete_animals_id ev req st
        = (Return (Response 400 (JsonError "Invalid ID format")), st'))
  /\ (forall e st',
        Model_findByIdAndUpdate ev (params_id req) (body req) st
        = (Throw e, st') ->
        put_animals_id ev req st
        = (Return (Response 400 (JsonError (message e))), st'))
  /\ (forall e, store_fault ev = Some e ->
        get_animals_id ev req st
        = (Return (Response 400 (JsonError "Invalid ID format")), st)
        /\ delete_animals_id ev req st
           = (Return (Response 400 (JsonError "Invalid ID format")), st))
  /\ (parseObjectId (params_id req) = None ->
        get_animals_id ev req st
        = (Return (Response 400 (JsonError "Invalid ID format")), st)
        /\ delete_animals_id ev req st
           = (Return (Response 400 (JsonError "Invalid ID format")), st)).
Proof.
  split; [|split; [|split; [|split]]].
  - intros e st' Hthrow. rewrite get_animals_id_of, Hthrow. reflexivity.
  - intros e st' Hthrow. rewrite delete_animals_id_of, Hthrow. reflexivity.
  - intros e st' Hthrow. rewrite put_animals_id_of, Hthrow. reflexivity.
  - intros e Hdown.
    rewrite get_animals_id_of, delete_animals_id_of, Model_findById_eq,
      Model_findByIdAndDelete_eq, Hdown.
    destruct (parseObjectId (params_id req)); split; reflexivity.
  - intros Hbad.
    rewrite get_animals_id_of, delete_animals_id_of, Model_findById_eq,
      Model_findByIdAndDelete_eq, Hbad.
    split; reflexivity.
Qed.

(** ** List, and where a server failure shows *)

Lemma elem_of_documents (st : collection) (d : document) :
  d ∈ documents st <-> st !! _id d = Some (fields d).
Proof.
  unfold documents. rewrite list_elem_of_fmap. split.
  - intros [[k a] [-> Hin]]. simpl. now apply elem_of_map_to_list.
  - intros Hd. exists (_id d, fields d). split; [now destruct d|].
    now apply elem_of_map_to_list.
Qed.

(** C7. List replies 200 with the array of all stored records (the empty
    array for the empty collection) when the server answers, and 500 with
    [{ error: message }] when the server call fails.  No other handler ever
    replies 500: whatever the model call of Get-by-id, Update or Delete
    throws, the reply is 400. *)
Theorem list_alone_replies_500 (ev : env) (req : request)
    (st : collection) :
  get_animals ev req st
  = match store_fault ev with
    | None => (Return (Response 200 (JsonArray (documents st))), st)
    | Some e => (Return (Response 500 (JsonError (message e))), st)
    end
  /\ documents (∅ : collection) = []
  /\ (forall d, d ∈ documents st <-> st !! _id d = Some (fields d))
  /\ status_of (post_animals ev req st) <> Some 500
  /\ status_of (get_animals_id ev req st) <> Some 500
  /\ status_of (put_animals_id ev req st) <> Some 500
  /\ status_of (delete_animals_id ev req st) <> Some 500
  /\ (forall e st', Model_findById ev (params_id req) st = (Throw e, st') ->
      status_of (get_animals_id ev req st) = Some 400)
  /\ (forall e st',
        Model_findByIdAndUpdate ev (params_id req) (body req) st
        = (Throw e, st') ->
        status_of (put_animals_id ev req st) = Some 400)
  /\ (forall e st',
        Model_findByIdAndDelete ev (params_id req) st = (Throw e, st') ->
        status_of (delete_animals_id ev req st) = Some 400).
Proof.
  split; [|split; [|split; [|split; [|split; [|split; [|split;
    [|split; [|split]]]]]]]].
  - rewrite get_animals_of, Model_find_eq.
    destruct (store_fault ev); reflexivity.
  - unfold documents. now rewrite map_to_list_empty.
  - apply elem_of_documents.
  - rewrite post_animals_of.
    destruct (Model_create ev (body req) st) as [[a|e] st']; discriminate.
  - rewrite get_animals_id_of.
    destruct (Model_findById ev (params_id req) st) as [[[a|]|e] st'];
      discriminate.
  - rewrite put_animals_id_of.
    destruct (Model_findByIdAndUpdate ev (params_id req) (body req) st)
      as [[[a|]|e] st']; discriminate.
  - rewrite delete_animals_id_of.
    destruct (Model_findByIdAndDelete ev (params_id req) st)
      as [[[a|]|e] st']; discriminate.
  - intros e st' Hthrow. rewrite get_animals_id_of, Hthrow. reflexivity.
  - intros e st' Hthrow. rewrite put_animals_id_of, Hthrow. reflexivity.
  - intros e st' Hthrow. rewrite delete_animals_id_of, Hthrow. reflexivity.
Qed.

(** ** Nothing escapes a handler *)

Ltac caught_case :=
  eexists; eexists; split; [reflexivity|];
  split;
    [first [ solve [intros ? ? [=]]
           | intros ? ? [=]; subst;
             split; [eexists; reflexivity | simpl; lia] ]|];
  split; [simpl; intros; first [eexists; reflexivity | lia]|];
  simpl; intros; first [reflexivity | discriminate].

(** C8. Each of the five handlers replies, whatever its model call does:
    an error thrown by the call is caught and answered with an error status
    and a body [{ error: message }]; every reply with an error status has
    that shape; and the only reply without a body is the 204 of Delete. *)
Theorem every_error_is_caught (ev : env) (req : request)
    (st : collection) :
  caught (Model_create ev (body req) st) (post_animals ev req st)
  /\ caught (Model_find ev st) (get_animals ev req st)
  /\ caught (Model_findById ev (params_id req) st)
       (get_animals_id ev req st)
  /\ caught (Model_findByIdAndUpdate ev (params_id req) (body req) st)
       (put_animals_id ev req st)
  /\ caught (Model_findByIdAndDelete ev (params_id req) st)
       (delete_animals_id ev req st)
  /\ (forall r st',
        post_animals ev req st = (Return r, st')
        \/ get_animals ev req st = (Return r, st')
        \/ get_animals_id ev req st = (Return r, st')
        \/ put_animals_id ev req st = (Return r, st') ->
        sent r <> EmptyBody).
Proof.
  split; [|split; [|split; [|split; [|split]]]].
  - rewrite post_animals_of.
    destruct (Model_create ev (body req) st) as [[a|e] st']; caught_case.
  - rewrite get_animals_of.
    destruct (Model_find ev st) as [[a|e] st']; caught_case.
  - rewrite get_animals_id_of.
    destruct (Model_findById ev (params_id req) st) as [[[a|]|e] st'];
      caught_case.
  - rewrite put_animals_id_of.
    destruct (Model_findByIdAndUpdate ev (params_id req) (body req) st)
      as [[[a|]|e] st']; caught_case.
  - rewrite delete_animals_id_of.
    destruct (Model_findByIdAndDelete ev (params_id req) st)
      as [[[a|]|e] st']; caught_case.
  - intros r st'.
    rewrite post_animals_of, get_animals_of, get_animals_id_of,
      put_animals_id_of.
    destruct (Model_create ev (body req) st) as [[a1|e1] st1];
    destruct (Model_find ev st) as [[a2|e2] st2];
    destruct (Model_findById ev (params_id req) st) as [[[a3|]|e3] st3];
    destruct (Model_findByIdAndUpdate ev (params_id req) (body req) st)
      as [[[a4|]|e4] st4];
    intros [[= <- _]|[[= <- _]|[[= <- _]|[= <- _]]]]; discriminate.
Qed.

(** ** Delete, twice *)

(** C6. For an identifier bound to a stored record, Delete replies 204
    with no body and the record is gone (the others stay); the same Delete
    again replies 404. *)
Theorem delete_then_delete (ev1 ev2 : env) (req : request)
    (st : collection) (oid : N) (a : gmap string value) :
  parseObjectId (params_id req) = Some oid ->
  st !! oid = Some a ->
  store_fault ev1 = None ->
  store_fault ev2 = None ->
  delete_animals_id ev1 req st
  = (Return (Response 204 EmptyBody), delete oid st)
  /\ delete oid st !! oid = None
  /\ (forall other, other <> oid -> delete oid st !! other = st !! other)
  /\ delete_animals_id ev2 req (delete oid st)
     = (Return (Response 404 (JsonError "Animal not found")), delete oid st).
Proof.
  intros Hid Hin Hup1 Hup2.
  rewrite !delete_animals_id_of, !Model_findByIdAndDelete_eq, Hid, Hup1, Hup2,
    Hin, lookup_delete_eq.
  split; [reflexivity|]. split; [reflexivity|]. split; [|reflexivity].
  intros other Hne. now apply lookup_delete_ne.
Qed.

(** ** Create, then read back *)

Lemma validateDocument_valid (n s : string) (q : Q) :
  n <> "" -> s <> "" ->
  validateDocument
    {[ "name" := JStr n; "species" := JStr s; "age" := JNum q ]}
  = inl (animal n s q).
Proof.
  intros Hn Hs. unfold validateDocument. cbn [validatePaths animalsSchema].
  change (({[ "name" := JStr n; "species" := JStr s; "age" := JNum q ]}
           : gmap string jvalue) !! "name") with (Some (JStr n)).
  change (({[ "name" := JStr n; "species" := JStr s; "age" := JNum q ]}
           : gmap string jvalue) !! "species") with (Some (JStr s)).
  change (({[ "name" := JStr n; "species" := JStr s; "age" := JNum q ]}
           : gmap string jvalue) !! "age") with (Some (JNum q)).
  destruct n; [congruence|]. destruct s; [congruence|]. reflexivity.
Qed.

(** C5. For a payload of a non-empty string [name], a non-empty string
    [species] and an integer [age], Create replies 201 with the record made
    of these three fields and the identifier the driver generated, which no
    stored record had; Get-by-id on that identifier as the reply prints it
    then replies 200 with the same record. *)
Theorem create_then_get (ev1 ev2 : env) (req1 req2 : request)
    (st : collection) (n s : string) (q : Q) :
  n <> "" -> s <> "" -> is_integer q = true ->
  body req1 = {[ "name" := JStr n; "species" := JStr s; "age" := JNum q ]} ->
  store_fault ev1 = None ->
  store_fault ev2 = None ->
  st !! generated_id ev1 = None ->
  (generated_id ev1 < oid_bound)%N ->
  params_id req2 = toHexString (generated_id ev1) ->
  let created := Document (generated_id ev1) (animal n s q) in
  let st' := <[generated_id ev1 := animal n s q]> st in
  post_animals ev1 req1 st
  = (Return (Response 201 (JsonDocument created)), st')
  /\ get_animals_id ev2 req2 st'
     = (Return (Response 200 (JsonDocument created)), st').
Proof.
  intros Hn Hs _ Hbody Hup1 Hup2 Hfresh Hwf Hid created st'.
  split.
  - rewrite post_animals_of, Model_create_eq, Hbody,
      validateDocument_valid, Hup1, Hfresh by assumption.
    reflexivity.
  - rewrite get_animals_id_of, Model_findById_eq, Hid,
      parse_toHexString, Hup2 by assumption.
    unfold st'. rewrite lookup_insert_eq. reflexivity.
Qed.

(** ** Update: a patch, validated path by path *)

Lemma applyUpdate_lookup (u : gmap string (option value))
    (a : gmap string value) (path : string) :
  applyUpdate u a !! path = set_path (u !! path) (a !! path).
Proof.
  unfold applyUpdate. rewrite lookup_merge.
  destruct (u !! path), (a !! path); reflexivity.
Qed.


(** The update holds exactly the paths of the schema that the body
    carries, each with its cast value. *)
Lemma castUpdatePaths_lookup (schema : list (string * schema_path))
    (b : gmap string jvalue) (u : gmap string (option value))
    (path : string) :
  castUpdatePaths schema b = inl u ->
  u !! path =
  match path_of schema path, b !! path with
  | Some p, Some v =>
      match castPath (type p) v with
      | Cast y => Some (Some y)
      | Null => Some None
      | Uncastable => None
      end
  | _, _ => None
  end.
Proof.
  revert u. induction schema as [|[k p] rest IH]; intros u;
    cbn [castUpdatePaths path_of].
  - intros [= <-]. now rewrite lookup_empty.
  - destruct (b !! k) as [x|] eqn:Hk.
    + destruct (castPath (type p) x) as [y| |] eqn:Hc; [| |discriminate];
        (destruct (castUpdatePaths rest b) as [u'|e]; [|discriminate]);
        intros [= <-];
        (destruct (decide (k = path)) as [->|Hne];
         [rewrite lookup_insert_eq, Hk, Hc; reflexivity
         |rewrite lookup_insert_ne by exact Hne; now apply IH]).
    + intros Hu. destruct (decide (k = path)) as [->|Hne]; [|now apply IH].
      rewrite (IH u Hu), Hk. now destruct (path_of rest path).
Qed.


Lemma animalsSchema_required (path : string) (p : schema_path) :
  path_of animalsSchema path = Some p -> required p = true.
Proof.
  cbn [path_of animalsSchema].
  repeat case_decide; intros [= <-]; reflexivity.
Qed.

Lemma present_fields_valid_inv (b : gmap string jvalue) (path : string)
    (p : schema_path) (v : jvalue) :
  present_fields_valid b = true ->
  path_of animalsSchema path = Some p ->
  b !! path = Some v ->
  acceptsPath p v = true.
Proof.
  unfold present_fields_valid. cbn [forallb animalsSchema fst snd].
  intros Hv. apply andb_prop in Hv as [Hn Hv].
  apply andb_prop in Hv as [Hs Hv]. apply andb_prop in Hv as [Ha _].
  cbn [path_of animalsSchema]. intros Hp Hb.
  repeat case_decide; subst; try discriminate;
    injection Hp as <-; rewrite Hb in *; assumption.
Qed.

Ltac case_string b k :=
  let v := fresh "v" in
  let Hb := fresh "Hb" in
  let Hc := fresh "Hc" in
  destruct (b !! k) as [v|] eqn:Hb;
  [destruct (castString v) as [[|? ?]| |] eqn:Hc|].

Ltac case_number b k :=
  let v := fresh "v" in
  let Hb := fresh "Hb" in
  let Hc := fresh "Hc" in
  destruct (b !! k) as [v|] eqn:Hb;
  [destruct (castNumber v) as [?| |] eqn:Hc|].

Ltac case_fields b :=
  case_string b "name"; case_string b "species"; case_number b "age".

Ltac eval_paths_step :=
  unfold acceptsPath, docPath, castPath;
  cbn [castUpdatePaths validateUpdatePaths validatePaths animalsSchema
       forallb fst snd type required castPath kind docPath acceptsPath
       updatePathError checkRequired from_option andb orb negb];
  repeat match goal with
         | H : castString _ = _ |- _ => rewrite H
         | H : castNumber _ = _ |- _ => rewrite H
         | H : _ !! _ = _ |- _ => rewrite H
         end.

Ltac eval_paths := repeat (progress eval_paths_step).

(** What [checkedUpdate] answers: the cast update when every path present
    is accepted, and otherwise an error about paths that are present. *)
Lemma checkedUpdate_cases (b : gmap string jvalue) :
  match checkedUpdate b with
  | inl u => present_fields_valid b = true /\ castUpdate b = inl u
  | inr e =>
      present_fields_valid b = false
      /\ (forall path, path ∈ error_paths e -> is_Some (b !! path))
  end.
Proof.
  unfold checkedUpdate, castUpdate, validateUpdate, present_fields_valid.
  case_fields b; eval_paths.
  all: repeat first [ rewrite lookup_insert_eq
                    | rewrite lookup_insert_ne by discriminate
                    | rewrite lookup_empty ];
    eval_paths.
  all: first
      [ split; reflexivity
      | split; [reflexivity|];
        intros path Hin; cbn in Hin;
        repeat (apply elem_of_cons in Hin as [->|Hin];
                [eexists; eassumption|]);
        now apply elem_of_nil in Hin ].
Qed.


Lemma accepted_is_cast (p : schema_path) (v : jvalue) :
  required p = true -> acceptsPath p v = true ->
  exists y, castPath (type p) v = Cast y /\ checkRequired y = true.
Proof.
  unfold acceptsPath. intros ->.
  destruct (castPath (type p) v) as [y| |]; try discriminate.
  cbn [negb orb]. eauto.
Qed.

(** A checked update sets no path to [null]: every path of
    [animalsSchema] is required. *)
Lemma checkedUpdate_lookup (b : gmap string jvalue)
    (u : gmap string (option value)) (path : string) :
  checkedUpdate b = inl u ->
  u !! path =
  match path_of animalsSchema path, b !! path with
  | Some p, Some v =>
      match castPath (type p) v with
      | Cast y => Some (Some y)
      | _ => None
      end
  | _, _ => None
  end.
Proof.
  intros Hu. pose proof (checkedUpdate_cases b) as Hc. rewrite Hu in Hc.
  destruct Hc as [Hvalid Hcast].
  rewrite (castUpdatePaths_lookup _ _ _ path Hcast).
  destruct (path_of animalsSchema path) as [p|] eqn:Hp; [|reflexivity].
  destruct (b !! path) as [v|] eqn:Hb; [|reflexivity].
  destruct (accepted_is_cast p v (animalsSchema_required _ _ Hp)
              (present_fields_valid_inv _ _ _ _ Hvalid Hp Hb))
    as (y & -> & _).
  reflexivity.
Qed.



(** The checks of one path are those of Create. *)
Lemma acceptsPath_docPath (p : schema_path) (v : jvalue) :
  acceptsPath p v = true <-> exists y, docPath p (Some v) = inl y.
Proof.
  unfold acceptsPath, docPath.
  destruct (castPath (type p) v) as [y| |]; destruct (required p);
    cbn [negb orb andb]; try destruct (checkRequired y);
    cbn [negb]; split; intros Hx;
    first [ discriminate Hx | reflexivity | eexists; reflexivity
          | now destruct Hx ].
Qed.

(** A validated document has the fields of the schema, and no other. *)
Lemma validateDocument_complete (b : gmap string jvalue)
    (a : gmap string value) :
  validateDocument b = inl a -> complete a.
Proof.
  unfold validateDocument. case_fields b; eval_paths; try discriminate.
  intros [= <-] path. cbn [path_of animalsSchema].
  rewrite !lookup_insert, lookup_empty.
  repeat case_decide; split; intros [x Hx]; first [discriminate Hx | eauto].
Qed.




(** ** Stored records stay complete *)

Lemma applyUpdate_complete (b : gmap string jvalue)
    (u : gmap string (option value)) (a : gmap string value) :
  checkedUpdate b = inl u -> complete a -> complete (applyUpdate u a).
Proof.
  intros Hu Ha path. specialize (Ha path).
  rewrite applyUpdate_lookup, (checkedUpdate_lookup _ _ path Hu).
  destruct (path_of animalsSchema path) as [p|]; [|exact Ha].
  destruct (b !! path) as [v|]; [|exact Ha].
  destruct (castPath (type p) v) as [y| |]; [|exact Ha..].
  cbn. split; intros _; now eexists.
Qed.

(** Every record that Create or Update stores has the three fields of the
    schema; Delete and the reads store nothing. *)
Lemma handlers_keep_records_complete (ev : env) (req : request)
    (st : collection) :
  all_complete st ->
  all_complete (snd (post_animals ev req st))
  /\ all_complete (snd (get_animals ev req st))
  /\ all_complete (snd (get_animals_id ev req st))
  /\ all_complete (snd (put_animals_id ev req st))
  /\ all_complete (snd (delete_animals_id ev req st)).
Proof.
  intros Hst. split; [|split; [|split; [|split]]].
  - rewrite post_animals_of, Model_create_eq.
    destruct (validateDocument (body req)) as [a|errors] eqn:Hdoc;
      [|exact Hst].
    destruct (store_fault ev); [exact Hst|].
    destruct (st !! generated_id ev); [exact Hst|].
    intros oid a' Hlook. cbn in Hlook.
    apply lookup_insert_Some in Hlook as [[_ <-]|[_ Hlook]];
      [now apply validateDocument_complete in Hdoc | now apply (Hst oid)].
  - rewrite get_animals_of, Model_find_eq.
    destruct (store_fault ev); exact Hst.
  - rewrite get_animals_id_of, Model_findById_eq.
    destruct (parseObjectId (params_id req)) as [oid|]; [|exact Hst].
    destruct (store_fault ev); [exact Hst|].
    destruct (st !! oid); exact Hst.
  - rewrite put_animals_id_of, Model_findByIdAndUpdate_eq.
    destruct (parseObjectId (params_id req)) as [oid|]; [|exact Hst].
    destruct (checkedUpdate (body req)) as [u|e] eqn:Hu; [|exact Hst].
    destruct (store_fault ev); [exact Hst|].
    destruct (st !! oid) as [a|] eqn:Ha; [|exact Hst].
    intros oid' a' Hlook. cbn in Hlook.
    apply lookup_insert_Some in Hlook as [[_ <-]|[_ Hlook]];
      [exact (applyUpdate_complete _ _ _ Hu (Hst _ _ Ha))
      | now apply (Hst oid')].
  - rewrite delete_animals_id_of, Model_findByIdAndDelete_eq.
    destruct (parseObjectId (params_id req)) as [oid|]; [|exact Hst].
    destruct (store_fault ev); [exact Hst|].
    destruct (st !! oid) as [a|] eqn:Ha; [|exact Hst].
    intros oid' a' Hlook. cbn in Hlook.
    apply lookup_delete_Some in Hlook as [_ Hlook]. now apply (Hst oid').
Qed.

(** ** Create: what is refused, and what is not *)

Lemma validatePaths_refuses (schema : list (string * schema_path))
    (b : gmap string jvalue) (path : string) (p : schema_path)
    (e : field_error) :
  (path, p) ∈ schema -> docPath p (b !! path) = inr e ->
  snd (validatePaths schema b) <> [].
Proof.
  induction schema as [|[k q] rest IH]; intros Hin Herr.
  - now apply elem_of_nil in Hin.
  - cbn [validatePaths].
    destruct (validatePaths rest b) as [doc errors].
    apply elem_of_cons in Hin as [[= <- <-]|Hin].
    + rewrite Herr. discriminate.
    + specialize (IH Hin Herr).
      destruct (docPath q (b !! k)) as [[y|]|e'];
        first [exact IH | discriminate].
Qed.

(** The half of C3 that holds: a body that misses a path of the schema, or
    whose value for a path cannot be cast (an [age] that is no number), is
    refused with 400 and [{ error: message }], and nothing is stored. *)
Lemma post_refuses_missing_field (ev : env) (req : request)
    (st : collection) (path : string) (p : schema_path) :
  (path, p) ∈ animalsSchema ->
  body req !! path = None
  \/ (exists v, body req !! path = Some v
                /\ castPath (type p) v = Uncastable) ->
  exists msg,
    post_animals ev req st = (Return (Response 400 (JsonError msg)), st).
Proof.
  intros Hin Hbad. rewrite post_animals_of, Model_create_eq.
  assert (exists e, docPath p (body req !! path) = inr e) as [e He].
  { assert (required p = true) as Hreq.
    { unfold animalsSchema in Hin.
      repeat (apply elem_of_cons in Hin as [[= -> ->]|Hin];
              [reflexivity|]).
      now apply elem_of_nil in Hin. }
    unfold docPath. destruct Hbad as [->|[v [-> ->]]];
      [rewrite Hreq|]; eexists; reflexivity. }
  pose proof (validatePaths_refuses animalsSchema _ _ _ _ Hin He) as Hne.
  unfold validateDocument.
  destruct (validatePaths animalsSchema (body req)) as [doc [|e0 errors]];
    [now cbn in Hne | eexists; reflexivity].
Qed.

(** C3, at the input where the code departs from it: an [age] of 2.5 is
    not an integer, and Create stores the record and replies 201. *)
Theorem post_accepts_fractional_age :
  is_integer (5 # 2) = false
  /\ post_animals quiet half_aged_lion ∅
     = (Return (Response 201 (JsonDocument
                 (Document lion_id (animal "Lion" "Mammal" (5 # 2))))),
        {[ lion_id := animal "Lion" "Mammal" (5 # 2) ]}).
Proof. split; reflexivity. Qed.

(** ** Boot *)

(** C4, as the code has it.  When the connection fails the process exits
    with code 1.  Whatever the outcome of the connection, [app.listen] has
    run before it is known: the port is opened first, and a failed
    connection ends a process that was already listening. *)
Theorem boot_listens_before_connecting (e : js_error) :
  boot (ConnectFailed e)
  = [ConnectCalled; Listening 3000;
     ConsoleLog "Server listening on port 3000";
     ConnectSettled (ConnectFailed e);
     ConsoleError "Error connecting to MongoDB:" (message e);
     ProcessExit 1]
  /\ exit_code (boot (ConnectFailed e)) = Some 1
  /\ boot Connected
     = [ConnectCalled; Listening 3000;
        ConsoleLog "Server listening on port 3000";
        ConnectSettled Connected; ConsoleLog "Connected to MongoDB"]
  /\ exit_code (boot Connected) = None.
Proof. repeat split. Qed.

(** * More of the handlers *)

(** ** Each handler, case by case *)

Lemma post_animals_cases (ev : env) (req : request) (st : collection) :
  post_animals ev req st =
  match validateDocument (body req) with
  | inr errors =>
      (Return (Response 400 (JsonError (message (ValidationError errors)))),
       st)
  | inl a =>
      match store_fault ev with
      | Some e => (Return (Response 400 (JsonError (message e))), st)
      | None =>
          match st !! generated_id ev with
          | Some _ =>
              (Return (Response 400
                         (JsonError (message (MongoServerError 11000)))),
               st)
          | None =>
              (Return (Response 201
                         (JsonDocument (Document (generated_id ev) a))),
               <[generated_id ev := a]> st)
          end
      end
  end.
Proof.
  rewrite post_animals_of, Model_create_eq.
  destruct (validateDocument (body req)); [|reflexivity].
  destruct (store_fault ev); [reflexivity|].
  destruct (st !! generated_id ev); reflexivity.
Qed.

Lemma get_animals_cases (ev : env) (req : request) (st : collection) :
  get_animals ev req st =
  match store_fault ev with
  | Some e => (Return (Response 500 (JsonError (message e))), st)
  | None => (Return (Response 200 (JsonArray (documents st))), st)
  end.
Proof.
  rewrite get_animals_of, Model_find_eq.
  destruct (store_fault ev); reflexivity.
Qed.

Lemma get_animals_id_cases (ev : env) (req : request) (st : collection) :
  get_animals_id ev req st =
  match parseObjectId (params_id req) with
  | None => (Return (Response 400 (JsonError "Invalid ID format")), st)
  | Some oid =>
      match store_fault ev with
      | Some _ =>
          (Return (Response 400 (JsonError "Invalid ID format")), st)
      | None =>
          match st !! oid with
          | Some a =>
              (Return (Response 200 (JsonDocument (Document oid a))), st)
          | None =>
              (Return (Response 404 (JsonError "Animal not found")), st)
          end
      end
  end.
Proof.
  rewrite get_animals_id_of, Model_findById_eq.
  destruct (parseObjectId (params_id req)) as [oid|]; [|reflexivity].
  destruct (store_fault ev); [reflexivity|].
  destruct (st !! oid); reflexivity.
Qed.

Lemma put_animals_id_cases (ev : env) (req : request) (st : collection) :
  put_animals_id ev req st =
  match parseObjectId (params_id req) with
  | None =>
      (Return (Response 400
                 (JsonError
                    (message (CastError "ObjectId" "_id"
                                (JStr (params_id req)))))),
       st)
  | Some oid =>
      match checkedUpdate (body req) with
      | inr e => (Return (Response 400 (JsonError (message e))), st)
      | inl u =>
          match store_fault ev with
          | Some e => (Return (Response 400 (JsonError (message e))), st)
          | None =>
              match st !! oid with
              | Some a =>
                  (Return (Response 200
                             (JsonDocument
                                (Document oid (applyUpdate u a)))),
                   <[oid := applyUpdate u a]> st)
              | None =>
                  (Return (Response 404 (JsonError "Animal not found")),
                   st)
              end
          end
      end
  end.
Proof.
  rewrite put_animals_id_of, Model_findByIdAndUpdate_eq.
  destruct (parseObjectId (params_id req)) as [oid|]; [|reflexivity].
  destruct (checkedUpdate (body req)); [|reflexivity].
  destruct (store_fault ev); [reflexivity|].
  destruct (st !! oid); reflexivity.
Qed.

Lemma delete_animals_id_cases (ev : env) (req : request) (st : collection) :
  delete_animals_id ev req st =
  match parseObjectId (params_id req) with
  | None => (Return (Response 400 (JsonError "Invalid ID format")), st)
  | Some oid =>
      match store_fault ev with
      | Some _ =>
          (Return (Response 400 (JsonError "Invalid ID format")), st)
      | None =>
          match st !! oid with
          | Some a => (Return (Response 204 EmptyBody), delete oid st)
          | None =>
              (Return (Response 404 (JsonError "Animal not found")), st)
          end
      end
  end.
Proof.
  rewrite delete_animals_id_of, Model_findByIdAndDelete_eq.
  destruct (parseObjectId (params_id req)) as [oid|]; [|reflexivity].
  destruct (store_fault ev); [reflexivity|].
  destruct (st !! oid); reflexivity.
Qed.

Ltac handler_cases :=
  cbn [handle];
  rewrite ?post_animals_cases, ?get_animals_cases, ?get_animals_id_cases,
    ?put_animals_id_cases, ?delete_animals_id_cases;
  repeat match goal with
         | |- context [match ?x with _ => _ end] =>
             lazymatch x with
             | validateDocument _ => destruct x eqn:?
             | checkedUpdate _ => destruct x eqn:?
             | store_fault _ => destruct x eqn:?
             | parseObjectId _ => destruct x eqn:?
             | _ !! _ => destruct x eqn:?
             end
         end.

Ltac in_list :=
  repeat first [apply list_elem_of_here | apply list_elem_of_further].

Ltac reach ev req st := exists ev, req, st; reflexivity.

(** ** The documented replies *)

(** X1. Every handler replies with one of the statuses that the [@swagger]
    block of its route documents, and each documented status is the reply
    to some request. *)
Theorem replies_are_the_documented_ones :
  (forall (r : route) (ev : env) (req : request) (st : collection),
     exists res st',
       handle r ev req st = (Return res, st')
       /\ status res ∈ documented_responses r)
  /\ (forall (r : route) (code : Z),
        code ∈ documented_responses r ->
        exists ev req st, status_of (handle r ev req st) = Some code).
Proof.
  split.
  - intros r ev req st. destruct r; handler_cases;
      eexists; eexists; (split; [reflexivity|]); cbn; in_list.
  - intros r code Hin. destruct r; cbn in Hin;
      repeat (apply elem_of_cons in Hin as [->|Hin]);
      try (now apply elem_of_nil in Hin);
      first [ reach quiet create_lion (∅ : collection)
            | reach quiet empty_patch (∅ : collection)
            | reach unreachable empty_patch zoo
            | reach quiet empty_patch zoo
            | reach quiet (Request "not-an-id" ∅) zoo
            | reach quiet (Request stranger_hex ∅) zoo ].
Qed.

(** ** What a request may change *)



(** X4. Update never adds or removes a record (there is no upsert): the
    identifiers of the collection are the same after any Update, and every
    record other than the one addressed is unchanged. *)
Theorem update_keeps_the_identifiers (ev : env) (req : request)
    (st : collection) :
  dom (snd (put_animals_id ev req st)) = dom st
  /\ (forall oid, parseObjectId (params_id req) <> Some oid ->
                  snd (put_animals_id ev req st) !! oid = st !! oid).
Proof.
  rewrite put_animals_id_cases.
  destruct (parseObjectId (params_id req)) as [oid0|];
    [destruct (checkedUpdate (body req)) as [u|e];
     [destruct (store_fault ev);
      [|destruct (st !! oid0) as [a|] eqn:Hin]|]|];
    cbn [snd]; (split; [try reflexivity|intros; try reflexivity]).
  - apply dom_insert_lookup_L. rewrite Hin. now eexists.
  - apply lookup_insert_ne. congruence.
Qed.


(** ** How requests compose *)



(** X7. Read your writes: after an Update answered 200, Get-by-id on the
    same identifier (the server answering) replies 200 with the very
    document the Update replied, and List holds that document. *)
Theorem get_after_update (ev ev' : env) (req req' : request)
    (st st' : collection) (d : document) :
  put_animals_id ev req st
  = (Return (Response 200 (JsonDocument d)), st') ->
  params_id req' = params_id req ->
  store_fault ev' = None ->
  get_animals_id ev' req' st'
  = (Return (Response 200 (JsonDocument d)), st')
  /\ get_animals ev' req' st'
     = (Return (Response 200 (JsonArray (documents st'))), st')
  /\ d ∈ documents st'.
Proof.
  rewrite put_animals_id_cases. intros Hput Hsame Hup.
  destruct (parseObjectId (params_id req)) as [oid|] eqn:Hid;
    [|discriminate].
  destruct (checkedUpdate (body req)) as [u|e]; [|discriminate].
  destruct (store_fault ev); [discriminate|].
  destruct (st !! oid) as [a|]; [|discriminate].
  injection Hput as <- <-.
  rewrite get_animals_id_cases, get_animals_cases, Hsame, Hid, Hup,
    lookup_insert_eq.
  split; [reflexivity|]. split; [reflexivity|].
  apply elem_of_documents. cbn [_id fields]. apply lookup_insert_eq.
Qed.

(** X8. After a Delete answered 204 the record is gone for the reads:
    Get-by-id on the same identifier (the server answering) replies 404,
    and List holds the records it held before, less that one. *)
Theorem reads_after_delete (ev ev' : env) (req req' : request)
    (st : collection) :
  status_of (delete_animals_id ev req st) = Some 204 ->
  params_id req' = params_id req ->
  store_fault ev' = None ->
  exists oid a,
    parseObjectId (params_id req) = Some oid
    /\ st !! oid = Some a
    /\ get_animals_id ev' req' (snd (delete_animals_id ev req st))
       = (Return (Response 404 (JsonError "Animal not found")),
          snd (delete_animals_id ev req st))
    /\ get_animals ev' req' (snd (delete_animals_id ev req st))
       = (Return (Response 200
                    (JsonArray
                       (documents (snd (delete_animals_id ev req st))))),
          snd (delete_animals_id ev req st))
    /\ documents st
       ≡ₚ Document oid a :: documents (snd (delete_animals_id ev req st)).
Proof.
  rewrite delete_animals_id_cases. intros H204 Hsame Hup.
  destruct (parseObjectId (params_id req)) as [oid|] eqn:Hid;
    [|discriminate].
  destruct (store_fault ev); [discriminate|].
  destruct (st !! oid) as [a|] eqn:Hin; [|discriminate].
  exists oid, a. cbn [snd].
  rewrite get_animals_id_cases, get_animals_cases, Hsame, Hid, Hup,
    lookup_delete_eq.
  split; [reflexivity|]. split; [exact Hin|]. split; [reflexivity|].
  split; [reflexivity|].
  unfold documents. rewrite <- (map_to_list_delete st oid a Hin).
  reflexivity.
Qed.

(** X9. After a Create answered 201, List (the server answering) replies
    the created record together with the records it held before. *)
Theorem list_after_create (ev ev' : env) (req req' : request)
    (st st' : collection) (d : document) :
  post_animals ev req st
  = (Return (Response 201 (JsonDocument d)), st') ->
  store_fault ev' = None ->
  get_animals ev' req' st'
  = (Return (Response 200 (JsonArray (documents st'))), st')
  /\ documents st' ≡ₚ d :: documents st.
Proof.
  rewrite post_animals_cases. intros Hpost Hup.
  destruct (validateDocument (body req)) as [a|errors]; [|discriminate].
  destruct (store_fault ev); [discriminate|].
  destruct (st !! generated_id ev) eqn:Hfree; [discriminate|].
  injection Hpost as <- <-.
  rewrite get_animals_cases, Hup. split; [reflexivity|].
  unfold documents. rewrite (map_to_list_insert st _ a Hfree).
  reflexivity.
Qed.

(** X10. Get-by-id and List agree: with the server answering, Get-by-id
    replies 200 with a document exactly when the identifier parses to the
    [_id] of that document and List holds it. *)
Theorem get_agrees_with_list (ev : env) (req : request) (st : collection)
    (d : document) :
  store_fault ev = None ->
  (get_animals_id ev req st = (Return (Response 200 (JsonDocument d)), st)
   <-> parseObjectId (params_id req) = Some (_id d)
       /\ exists ds,
            get_animals ev req st
            = (Return (Response 200 (JsonArray ds)), st)
            /\ d ∈ ds).
Proof.
  intros Hup. rewrite get_animals_id_cases, get_animals_cases, Hup.
  split.
  - destruct (parseObjectId (params_id req)) as [oid|]; [|discriminate].
    destruct (st !! oid) as [a|] eqn:Hin; [|discriminate].
    intros [= <-]. split; [reflexivity|].
    exists (documents st). split; [reflexivity|].
    now apply elem_of_documents.
  - intros [Hid (ds & [= <-] & Hd)]. apply elem_of_documents in Hd.
    rewrite Hid, Hd. now destruct d.
Qed.

(** ** The records stay typed as the schema types them *)




(** ** Create: exactly what is accepted *)



(** ** Two updates in a row *)




(** X14. Create then Delete is a round trip: after a Create answered 201,
    Delete on the identifier as the reply prints it (the server answering)
    replies 204 and the collection is what it was before the Create. *)
Theorem delete_undoes_create (ev ev' : env) (req req' : request)
    (st st' : collection) (d : document) :
  post_animals ev req st
  = (Return (Response 201 (JsonDocument d)), st') ->
  (_id d < oid_bound)%N ->
  params_id req' = toHexString (_id d) ->
  store_fault ev' = None ->
  delete_animals_id ev' req' st' = (Return (Response 204 EmptyBody), st).
Proof.
  rewrite post_animals_cases. intros Hpost Hbound Hsame Hup.
  destruct (validateDocument (body req)) as [a|errors]; [|discriminate].
  destruct (store_fault ev); [discriminate|].
  destruct (st !! generated_id ev) eqn:Hfree; [discriminate|].
  injection Hpost as <- <-. cbn [_id] in *.
  rewrite delete_animals_id_cases, Hsame, parse_toHexString, Hup,
    lookup_insert_eq by exact Hbound.
  rewrite delete_insert_eq, delete_id by exact Hfree. reflexivity.
Qed.

End Claims.

(** ** The statements above, on the sample data *)

Lemma id_syntax_then_lookup_witness :
  parseObjectId "not-an-id" = None
  /\ status_of (get_animals_id quiet (Request "not-an-id" ∅) zoo) = Some 400
  /\ status_of (@put_animals_id sample_runtime quiet
                  (Request "not-an-id" ∅) zoo) = Some 400
  /\ status_of (delete_animals_id quiet (Request "not-an-id" ∅) zoo)
     = Some 400
  /\ parseObjectId stranger_hex = Some stranger_id
  /\ zoo !! stranger_id = None
  /\ status_of (get_animals_id quiet (Request stranger_hex ∅) zoo)
     = Some 404
  /\ status_of (@put_animals_id sample_runtime quiet
                  (Request stranger_hex ∅) zoo) = Some 404
  /\ status_of (delete_animals_id quiet (Request stranger_hex ∅) zoo)
     = Some 404
  /\ status_of (get_animals_id quiet (Request stranger_hex ∅) zoo)
     = Some 404
  /\ status_of (@put_animals_id sample_runtime quiet
                  (Request stranger_hex ∅) zoo) = Some 404
  /\ status_of (delete_animals_id quiet (Request stranger_hex ∅) zoo)
     = Some 404.
Proof.
  destruct (@id_syntax_then_lookup sample_runtime quiet
              (Request "not-an-id" ∅) zoo) as [Hbad _].
  destruct (Hbad eq_refl) as (Hget & Hput & Hdel).
  destruct (@id_syntax_then_lookup sample_runtime quiet
              (Request stranger_hex ∅) zoo) as [_ Hok].
  destruct (Hok stranger_id eq_refl) as (Hget' & Hput' & Hdel' & Habsent).
  destruct (Habsent eq_refl eq_refl) as (Hget404 & Hdel404 & Hput404).
  split; [reflexivity|].
  split; [exact Hget|]. split; [exact Hput|]. split; [exact Hdel|].
  split; [reflexivity|]. split; [reflexivity|].
  split; [exact (Hget' eq_refl)|].
  split; [exact (Hput' eq_refl)|].
  split; [exact (Hdel' eq_refl)|].
  split; [exact Hget404|].
  split; [exact (Hput404 ∅ eq_refl) | exact Hdel404].
Defined.

Lemma get_delete_hide_the_error_witness :
  store_fault unreachable = Some (DriverError "connection lost")
  /\ Model_findById unreachable lion_hex zoo
     = (Throw (DriverError "connection lost"), zoo)
  /\ get_animals_id unreachable (Request lion_hex ∅) zoo
     = (Return (Response 400 (JsonError "Invalid ID format")), zoo)
  /\ delete_animals_id unreachable (Request lion_hex ∅) zoo
     = (Return (Response 400 (JsonError "Invalid ID format")), zoo)
  /\ get_animals_id unreachable (Request lion_hex ∅) zoo
     = get_animals_id quiet (Request "not-an-id" ∅) zoo
  /\ delete_animals_id unreachable (Request lion_hex ∅) zoo
     = delete_animals_id quiet (Request "not-an-id" ∅) zoo
  /\ @put_animals_id sample_runtime unreachable (Request lion_hex ∅) zoo
     = (Return (Response 400 (JsonError "connection lost")), zoo).
Proof.
  destruct (@get_delete_hide_the_error sample_runtime unreachable
              (Request lion_hex ∅) zoo)
    as (Hget0 & Hdel0 & Hput & Hdown & _).
  destruct (@get_delete_hide_the_error sample_runtime quiet
              (Request "not-an-id" ∅) zoo) as (_ & _ & _ & _ & Hbad).
  destruct (Hdown _ eq_refl) as [Hget Hdel].
  destruct (Hbad eq_refl) as [Hget' Hdel'].
  split; [reflexivity|]. split; [reflexivity|].
  split; [exact (Hget0 (DriverError "connection lost") zoo eq_refl)|].
  split; [exact (Hdel0 (DriverError "connection lost") zoo eq_refl)|].
  split; [exact (eq_trans Hget (eq_sym Hget'))|].
  split; [exact (eq_trans Hdel (eq_sym Hdel'))|].
  exact (Hput (DriverError "connection lost") zoo eq_refl).
Defined.

Lemma list_alone_replies_500_witness :
  Model_findById unreachable lion_hex zoo
  = (Throw (DriverError "connection lost"), zoo)
  /\ status_of (get_animals_id unreachable (Request lion_hex ∅) zoo)
     = Some 400
  /\ status_of (@put_animals_id sample_runtime unreachable
                  (Request lion_hex ∅) zoo) = Some 400
  /\ status_of (delete_animals_id unreachable (Request lion_hex ∅) zoo)
     = Some 400
  /\ @get_animals sample_runtime unreachable (Request "" ∅) zoo
     = (Return (Response 500 (JsonError "connection lost")), zoo)
  /\ (Document lion_id lion ∈ documents zoo).
Proof.
  destruct (@list_alone_replies_500 sample_runtime unreachable
              (Request lion_hex ∅) zoo)
    as (_ & _ & _ & _ & _ & _ & _ & Hget & Hput & Hdel).
  destruct (@list_alone_replies_500 sample_runtime unreachable
              (Request "" ∅) zoo) as (Hlist & _ & Hall & _).
  split; [reflexivity|].
  split; [exact (Hget _ _ eq_refl)|].
  split; [exact (Hput _ _ eq_refl)|].
  split; [exact (Hdel _ _ eq_refl)|].
  split; [exact Hlist|].
  apply Hall. reflexivity.
Defined.

Lemma every_error_is_caught_witness :
  Model_findByIdAndDelete unreachable lion_hex zoo
  = (Throw (DriverError "connection lost"), zoo)
  /\ (exists r st',
        delete_animals_id unreachable (Request lion_hex ∅) zoo
        = (Return r, st')
        /\ error_shaped r /\ 400 <= status r)
  /\ (exists r st',
        @post_animals sample_runtime unreachable (Request "" ∅) zoo
        = (Return r, st')
        /\ sent r <> EmptyBody).
Proof.
  destruct (@every_error_is_caught sample_runtime unreachable
              (Request lion_hex ∅) zoo) as (_ & _ & _ & _ & Hdel & _).
  destruct (@every_error_is_caught sample_runtime unreachable
              (Request "" ∅) zoo) as (Hpost & _ & _ & _ & _ & Hbody).
  destruct Hdel as (r & st' & Hreply & Hthrown & _).
  destruct Hpost as (r' & st'' & Hreply' & _).
  split; [reflexivity|]. split.
  - exists r, st'. split; [exact Hreply|]. exact (Hthrown _ _ eq_refl).
  - exists r', st''. split; [exact Hreply'|].
    apply (Hbody r' st''). left. exact Hreply'.
Defined.

Lemma delete_then_delete_witness :
  parseObjectId (params_id (Request lion_hex ∅)) = Some lion_id
  /\ zoo !! lion_id = Some lion
  /\ store_fault quiet = None
  /\ delete_animals_id quiet (Request lion_hex ∅) zoo
     = (Return (Response 204 EmptyBody), delete lion_id zoo)
  /\ delete_animals_id quiet (Request lion_hex ∅) (delete lion_id zoo)
     = (Return (Response 404 (JsonError "Animal not found")),
        delete lion_id zoo).
Proof.
  destruct (delete_then_delete quiet quiet (Request lion_hex ∅) zoo
              lion_id lion eq_refl eq_refl eq_refl eq_refl)
    as (Hfirst & _ & _ & Hsecond).
  split; [reflexivity|]. split; [reflexivity|]. split; [reflexivity|].
  split; [exact Hfirst | exact Hsecond].
Defined.

Lemma create_then_get_witness :
  is_integer 5 = true
  /\ (∅ : collection) !! generated_id quiet = None
  /\ (generated_id quiet < oid_bound)%N
  /\ toHexString (generated_id quiet) = lion_hex
  /\ @post_animals sample_runtime quiet create_lion ∅
     = (Return (Response 201 (JsonDocument (Document lion_id lion))),
        <[lion_id := lion]> ∅)
  /\ get_animals_id quiet (Request lion_hex ∅) (<[lion_id := lion]> ∅)
     = (Return (Response 200 (JsonDocument (Document lion_id lion))),
        <[lion_id := lion]> ∅).
Proof.
  assert ("Lion" <> "") as Hn by discriminate.
  assert ("Mammal" <> "") as Hs by discriminate.
  assert ((∅ : collection) !! generated_id quiet = None) as Hfresh
    by reflexivity.
  destruct (@create_then_get sample_runtime quiet quiet create_lion
              (Request lion_hex ∅) ∅ "Lion" "Mammal" 5
              Hn Hs eq_refl eq_refl eq_refl eq_refl Hfresh eq_refl eq_refl)
    as [Hpost Hget].
  split; [reflexivity|]. split; [reflexivity|]. split; [reflexivity|].
  split; [reflexivity|]. split; [exact Hpost | exact Hget].
Defined.






(** C4, as the specification words it, fails on the sample data: with a
    connection that fails, the port is opened although the connection was
    never established. *)
Lemma boot_opens_the_port_unconnected :
  listens_only_after_connected (@boot sample_runtime refused) = false
  /\ Listening 3000 ∈ @boot sample_runtime refused
  /\ ConnectSettled Connected ∉ @boot sample_runtime refused.
Proof.
  split; [reflexivity|]. split.
  - apply list_elem_of_In. simpl. tauto.
  - intros Hin. apply list_elem_of_In in Hin. simpl in Hin.
    repeat destruct Hin as [Hin|Hin]; try discriminate Hin. exact Hin.
Qed.

(** ** More of the handlers, on the sample data *)


Lemma get_after_update_witness :
  @put_animals_id sample_runtime quiet tiger_patch zoo
  = (Return (Response 200 (JsonDocument (Document lion_id tiger))),
     <[lion_id := tiger]> zoo)
  /\ params_id empty_patch = params_id tiger_patch
  /\ store_fault quiet = None
  /\ get_animals_id quiet empty_patch (<[lion_id := tiger]> zoo)
     = (Return (Response 200 (JsonDocument (Document lion_id tiger))),
        <[lion_id := tiger]> zoo)
  /\ Document lion_id tiger ∈ documents (<[lion_id := tiger]> zoo).
Proof.
  destruct (@get_after_update sample_runtime quiet quiet tiger_patch
              empty_patch zoo (<[lion_id := tiger]> zoo)
              (Document lion_id tiger) eq_refl eq_refl eq_refl)
    as (Hget & _ & Hin).
  split; [reflexivity|]. split; [reflexivity|]. split; [reflexivity|].
  split; [exact Hget | exact Hin].
Defined.

Lemma reads_after_delete_witness :
  status_of (delete_animals_id quiet empty_patch zoo) = Some 204
  /\ store_fault quiet = None
  /\ exists oid a,
       parseObjectId (params_id empty_patch) = Some oid
       /\ zoo !! oid = Some a
       /\ get_animals_id quiet empty_patch
            (snd (delete_animals_id quiet empty_patch zoo))
          = (Return (Response 404 (JsonError "Animal not found")),
             snd (delete_animals_id quiet empty_patch zoo))
       /\ @get_animals sample_runtime quiet empty_patch
            (snd (delete_animals_id quiet empty_patch zoo))
          = (Return (Response 200
                       (JsonArray
                          (documents
                             (snd (delete_animals_id quiet empty_patch
                                     zoo))))),
             snd (delete_animals_id quiet empty_patch zoo))
       /\ documents zoo
          ≡ₚ Document oid a
               :: documents (snd (delete_animals_id quiet empty_patch zoo)).
Proof.
  split; [reflexivity|]. split; [reflexivity|].
  exact (@reads_after_delete sample_runtime quiet quiet empty_patch
           empty_patch zoo eq_refl eq_refl eq_refl).
Defined.

Lemma list_after_create_witness :
  @post_animals sample_runtime quiet create_lion ∅
  = (Return (Response 201 (JsonDocument (Document lion_id lion))), zoo)
  /\ store_fault quiet = None
  /\ @get_animals sample_runtime quiet create_lion zoo
     = (Return (Response 200 (JsonArray (documents zoo))), zoo)
  /\ documents zoo ≡ₚ Document lion_id lion :: documents ∅.
Proof.
  split; [reflexivity|]. split; [reflexivity|].
  exact (@list_after_create sample_runtime quiet quiet create_lion
           create_lion ∅ zoo (Document lion_id lion) eq_refl eq_refl).
Defined.

Lemma get_agrees_with_list_witness :
  store_fault quiet = None
  /\ get_animals_id quiet empty_patch zoo
     = (Return (Response 200 (JsonDocument (Document lion_id lion))), zoo)
  /\ exists ds,
       @get_animals sample_runtime quiet empty_patch zoo
       = (Return (Response 200 (JsonArray ds)), zoo)
       /\ Document lion_id lion ∈ ds.
Proof.
  destruct (@get_agrees_with_list sample_runtime quiet empty_patch zoo
              (Document lion_id lion) eq_refl) as [Hlist _].
  destruct (Hlist eq_refl) as [_ Hds].
  split; [reflexivity|]. split; [reflexivity | exact Hds].
Defined.



Lemma delete_undoes_create_witness :
  @post_animals sample_runtime quiet create_lion ∅
  = (Return (Response 201 (JsonDocument (Document lion_id lion))), zoo)
  /\ (lion_id < oid_bound)%N
  /\ params_id empty_patch = toHexString lion_id
  /\ store_fault quiet = None
  /\ delete_animals_id quiet empty_patch zoo
     = (Return (Response 204 EmptyBody), ∅).
Proof.
  split; [reflexivity|]. split; [reflexivity|]. split; [reflexivity|].
  split; [reflexivity|].
  exact (@delete_undoes_create sample_runtime quiet quiet create_lion
           empty_patch ∅ zoo (Document lion_id lion)
           eq_refl eq_refl eq_refl eq_refl).
Defined.
